(** * Andromeda: the [performance.now] accessor and the FizzBuzz scripts

    A shallow embedding of three scripts of the repository:
    - the [performance] namespace, whose method [now] returns what the host
      primitive [internal_now] returns;
    - [examples/fizzbuzz.ts], the FizzBuzz loop timed by two clock readings;
    - the benchmark FizzBuzz, which prints [output || i].

    A script is a computation over a world made of the host clock and the
    console.  A computation completes with a value or with a thrown
    exception, as in ECMAScript. *)

From Stdlib Require Import ZArith List String Ascii Bool Lia.
From Stdlib Require Import Floats.SpecFloat.
Import ListNotations.

Local Open Scope string_scope.
Local Open Scope list_scope.
Local Open Scope Z_scope.

(** ** ECMAScript values used by the scripts *)

Module JS.

(** [Number::toString] in radix 10 on an integral Number below 10^21.  The
    loop counter of the scripts ranges over 1..101: integers that binary64
    holds exactly, on which [++], [<=], [%] and [toString] are the integer
    operations, so the counter is carried as a [Z]. *)

Definition digit_char (d : Z) : ascii :=
  ascii_of_nat (48 + Z.to_nat d).

Fixpoint digits_of (fuel : nat) (n : Z) (acc : string) : string :=
  match fuel with
  | O => acc
  | S fuel' =>
      let acc' := String (digit_char (n mod 10)) acc in
      if n / 10 =? 0 then acc' else digits_of fuel' (n / 10) acc'
  end.

Definition Number_toString (n : Z) : string :=
  if n <? 0
  then String "-" (digits_of (S (Z.to_nat (Z.log2 (- n)))) (- n) "")
  else digits_of (S (Z.to_nat (Z.log2 n))) n "".

(** A language value: the scripts handle strings and integral Numbers. *)
Inductive value : Type :=
| VString (s : string)
| VNumber (n : Z).

(** [ToBoolean]: the empty string and zero are falsy. *)
Definition ToBoolean (v : value) : bool :=
  match v with
  | VString s => negb (s =? "")%string
  | VNumber n => negb (n =? 0)
  end.

(** [a || b]: the left operand when it is truthy, the right one otherwise. *)
Definition or (a b : value) : value :=
  if ToBoolean a then a else b.

(** [ToString] of a value, the text that the console shows for it. *)
Definition ToString (v : value) : string :=
  match v with
  | VString s => s
  | VNumber n => Number_toString n
  end.

(** A clock reading is a Number in general: a binary64 float. *)
Definition prec : Z := 53.
Definition emax : Z := 1024.
Definition number : Type := spec_float.

Definition zero : number := S754_zero false.

(** [a - b] on Numbers. *)
Definition sub (a b : number) : number := SFsub prec emax a b.

(** [a >= b] on Numbers: false as soon as one side is NaN. *)
Definition ge (a b : number) : bool :=
  match SFcompare a b with
  | Some Gt | Some Eq => true
  | _ => false
  end.

(** [a > b] on Numbers: false as soon as one side is NaN. *)
Definition gt (a b : number) : bool :=
  match SFcompare a b with
  | Some Gt => true
  | _ => false
  end.

(** A binary64 value in canonical form. *)
Definition well_formed (x : number) : bool := valid_binary prec emax x.

Definition is_finite (x : number) : bool :=
  match x with
  | S754_zero _ | S754_finite _ _ _ => true
  | _ => false
  end.

End JS.

(** ** Completions, the world and the script monad *)

(** How a computation ends: with a value, with a thrown exception, or cut
    short because the loop budget of the model ran out. *)
Inductive completion (E A : Type) : Type :=
| Normal (a : A)
| Throw (e : E)
| OutOfFuel.

Arguments Normal {E A} a.
Arguments Throw {E A} e.
Arguments OutOfFuel {E A}.

(** What a script can touch: the state of the host clock and the lines
    written to the standard output so far, oldest first. *)
Record World (Host : Type) : Type := mkWorld {
  host : Host;
  console : list string
}.

Arguments mkWorld {Host} _ _.
Arguments host {Host} _.
Arguments console {Host} _.

Definition M (Host Exn A : Type) : Type :=
  World Host -> completion Exn A * World Host.

Definition ret {Host Exn A : Type} (a : A) : M Host Exn A :=
  fun w => (Normal a, w).

Definition bind {Host Exn A B : Type}
  (m : M Host Exn A) (k : A -> M Host Exn B) : M Host Exn B :=
  fun w =>
    match m w with
    | (Normal a, w') => k a w'
    | (Throw e, w') => (Throw e, w')
    | (OutOfFuel, w') => (OutOfFuel, w')
    end.

Declare Scope script_scope.
Delimit Scope script_scope with script.
Notation "x <- m ;; k" := (bind m (fun x => k))
  (at level 100, m at next level, right associativity) : script_scope.
Notation "m ;; k" := (bind m (fun _ => k))
  (at level 100, right associativity) : script_scope.
Local Open Scope script_scope.

Section Statements.

Context {Host Exn : Type}.

(** Modelled from the spec: [console.log], which is not among the sources,
    prints its argument to the standard output stream; the printed line is
    the [ToString] of the argument. *)
Definition console_log (v : JS.value) : M Host Exn unit :=
  fun w => (Normal tt, mkWorld (host w) (console w ++ [JS.ToString v])).

(** [for (let i = init; test(i); i = update(i)) body(i)]. *)
Fixpoint for_loop (fuel : nat) (test : Z -> bool) (update : Z -> Z)
  (body : Z -> M Host Exn unit) (i : Z) : M Host Exn unit :=
  match fuel with
  | O => fun w => (OutOfFuel, w)
  | S fuel' =>
      if test i
      then body i ;; for_loop fuel' test update body (update i)
      else ret tt
  end.

End Statements.

(** ** The performance namespace *)

Module performance.

Section Namespace.

Context {Host Exn : Type}.

(** The host primitive: reading the clock yields a Number or throws, and may
    change the state of the host clock, nothing else. *)
Variable internal_now : Host -> completion Exn JS.number * Host.

(** The call [internal_now()] from a script. *)
Definition call_internal_now : M Host Exn JS.number :=
  fun w =>
    let (c, h) := internal_now (host w) in
    (c, mkWorld h (console w)).

(** [now() { return internal_now(); }] *)
Definition now : M Host Exn JS.number :=
  t <- call_internal_now ;; ret t.

End Namespace.

End performance.

(** ** The FizzBuzz scripts *)

Section Scripts.

Context {Host Exn : Type}.

(** *** examples/fizzbuzz.ts, the loop *)

(** The value of [output] when it reaches [console.log]. *)
Definition label_ts (i : Z) : string :=
  let output := "" in
  let output := if Z.rem i 3 =? 0 then (output ++ "Fizz")%string else output in
  let output := if Z.rem i 5 =? 0 then (output ++ "Buzz")%string else output in
  let output := if (output =? "")%string then JS.Number_toString i else output in
  output.

Definition body_ts (i : Z) : M Host Exn unit :=
  console_log (JS.VString (label_ts i)).

Definition loop_ts (fuel : nat) : M Host Exn unit :=
  for_loop fuel (fun i => i <=? 100) (fun i => i + 1) body_ts 1.

(** *** The benchmark FizzBuzz *)

(** The value of [output] when it reaches [output || i]. *)
Definition output_bench (i : Z) : string :=
  let output := "" in
  let output := if Z.rem i 3 =? 0 then (output ++ "Fizz")%string else output in
  let output := if Z.rem i 5 =? 0 then (output ++ "Buzz")%string else output in
  output.

Definition body_bench (i : Z) : M Host Exn unit :=
  console_log (JS.or (JS.VString (output_bench i)) (JS.VNumber i)).

Definition fizzbuzz_bench (fuel : nat) : M Host Exn unit :=
  for_loop fuel (fun i => i <=? 100) (fun i => i + 1) body_bench 1.

(** *** examples/fizzbuzz.ts, the whole script *)

Variable internal_now : Host -> completion Exn JS.number * Host.

(** [Number::toString] on an arbitrary binary64 value, as the template
    literals need it; its digits play no part in what is proved. *)
Variable Number_toString_double : JS.number -> string.

Definition fizzbuzz_ts (fuel : nat) : M Host Exn unit :=
  start <- performance.now internal_now ;;
  loop_ts fuel ;;
  end_ <- performance.now internal_now ;;
  console_log (JS.VString ("End: " ++ Number_toString_double end_)%string) ;;
  console_log
    (JS.VString ("Execution time: "
                 ++ Number_toString_double (JS.sub end_ start) ++ "ms")%string).

End Scripts.

(** The line that the benchmark prints for [i]. *)
Definition line_bench (i : Z) : string :=
  JS.ToString (JS.or (JS.VString (output_bench i)) (JS.VNumber i)).

(** The lines a script adds to the console when run from [w]. *)
Definition printed {Host Exn : Type} (s : M Host Exn unit) (w : World Host)
  : list string :=
  skipn (List.length (console w)) (console (snd (s w))).

(** [Zseq i n] is [i; i+1; ...; i+n-1]. *)
Fixpoint Zseq (i : Z) (n : nat) : list Z :=
  match n with
  | O => []
  | S n' => i :: Zseq (i + 1) n'
  end.

(** The first fifteen lines of FizzBuzz. *)
Definition expected_15 : list string :=
  ["1"; "2"; "Fizz"; "4"; "Buzz"; "Fizz"; "7"; "8"; "Fizz"; "Buzz";
   "11"; "Fizz"; "13"; "14"; "FizzBuzz"].

(** ** The decimal numeral of an integer, stated on its own *)

Module Decimal.

Definition is_digit (c : ascii) : bool :=
  let n := nat_of_ascii c in ((48 <=? n)%nat && (n <=? 57)%nat)%bool.

Definition digit_value (c : ascii) : Z := Z.of_nat (nat_of_ascii c) - 48.

Fixpoint all_digits (s : string) : bool :=
  match s with
  | EmptyString => true
  | String c s' => (is_digit c && all_digits s')%bool
  end.

(** Horner evaluation of a digit string, most significant digit first. *)
Fixpoint value_from (acc : Z) (s : string) : Z :=
  match s with
  | EmptyString => acc
  | String c s' => value_from (10 * acc + digit_value c) s'
  end.

Definition no_leading_zero (s : string) : bool :=
  match s with
  | String c (String _ _) => negb (Ascii.eqb c "0"%char)
  | _ => true
  end.

(** [represents n s]: [s] is the decimal numeral of the natural number [n]:
    digits only, at least one, no leading zero, and value [n]. *)
Definition represents (n : Z) (s : string) : Prop :=
  s <> "" /\ all_digits s = true /\ no_leading_zero s = true /\
  value_from 0 s = n.

End Decimal.

(** ** Timestamps, host clocks and stateless operations *)

(** A timestamp is a finite binary64 Number of milliseconds. *)
Definition timestamp (x : JS.number) : bool :=
  (JS.well_formed x && JS.is_finite x)%bool.

(** A Number that is +0, positive and finite, or positive infinity: what
    rounding a natural number can give. *)
Definition plus_signed (x : JS.number) : Prop :=
  x = S754_zero false \/ x = S754_infinity false \/
  exists m e, x = S754_finite false m e.

Section HostAssumptions.

Context {Host Exn : Type}.
Variable internal_now : Host -> completion Exn JS.number * Host.

(** Of two successive successful readings, the later is not the smaller. *)
Definition monotonic_host : Prop :=
  forall h t1 h1 t2 h2,
    internal_now h = (Normal t1, h1) ->
    internal_now h1 = (Normal t2, h2) ->
    JS.ge t2 t1 = true.

Definition nonnegative_host : Prop :=
  forall h t h', internal_now h = (Normal t, h') -> JS.ge t JS.zero = true.

Definition host_yields_timestamps : Prop :=
  forall h t h', internal_now h = (Normal t, h') -> timestamp t = true.

(** An operation is stateless when what it returns is settled by what a
    script can observe apart from the clock: the state of the host clock has
    no say in it. *)
Definition stateless {A : Type} (f : M Host Exn A) : Prop :=
  forall (w : World Host) (h : Host),
    fst (f (mkWorld h (console w))) = fst (f w).

End HostAssumptions.

(** ** A synthetic host clock

    It advances by half a millisecond per reading, starting at 0.5, and is
    unavailable after four readings.  Its state counts the readings made. *)

Inductive stub_error : Type := ClockUnavailable.

(** The Number [m * 2^e], rounded to binary64. *)
Definition scaled (m e : Z) : JS.number :=
  binary_normalize JS.prec JS.emax m e false.

Definition stub_readings : list JS.number :=
  [scaled 1 (-1); scaled 2 (-1); scaled 3 (-1); scaled 4 (-1)].

Definition stub_now (n : nat) : completion stub_error JS.number * nat :=
  match nth_error stub_readings n with
  | Some t => (Normal t, S n)
  | None => (Throw ClockUnavailable, S n)
  end.

Definition stub_world (n : nat) : World nat := mkWorld n [].

(** A clock stuck at positive infinity: not a clock of timestamps. *)
Definition stuck_now (n : nat) : completion stub_error JS.number * nat :=
  (Normal (S754_infinity false), S n).

(** A clock that does not advance: every reading is [t]. *)
Definition stalled_now (t : JS.number) (n : nat)
  : completion stub_error JS.number * nat :=
  (Normal t, S n).

(** ** Ground facts *)

Lemma digit_value_char (d : Z) :
  0 <= d < 10 ->
  Decimal.digit_value (JS.digit_char d) = d /\
  Decimal.is_digit (JS.digit_char d) = true.
Proof.
  intros Hd.
  assert (H : d = 0 \/ d = 1 \/ d = 2 \/ d = 3 \/ d = 4 \/ d = 5 \/ d = 6 \/
              d = 7 \/ d = 8 \/ d = 9) by lia.
  repeat (destruct H as [-> | H]); try subst d; split; reflexivity.
Qed.

Lemma digit_char_zero (d : Z) :
  0 <= d < 10 -> JS.digit_char d = "0"%char -> d = 0.
Proof.
  intros Hd.
  assert (H : d = 0 \/ d = 1 \/ d = 2 \/ d = 3 \/ d = 4 \/ d = 5 \/ d = 6 \/
              d = 7 \/ d = 8 \/ d = 9) by lia.
  repeat (destruct H as [-> | H]); try subst d; try reflexivity;
    intros E; discriminate E.
Qed.

Lemma append_cons_assoc (d : string) (c : ascii) (rest : string) :
  (d ++ String c rest)%string = ((d ++ String c "") ++ rest)%string.
Proof.
  induction d as [| x d IH]; simpl; [reflexivity | now rewrite IH].
Qed.

Lemma all_digits_snoc (d : string) (c : ascii) :
  Decimal.all_digits d = true -> Decimal.is_digit c = true ->
  Decimal.all_digits (d ++ String c "") = true.
Proof.
  induction d as [| x d IH]; simpl; intros Hd Hc.
  - now rewrite Hc.
  - apply andb_true_iff in Hd as [Hx Hd]. rewrite Hx. simpl. now apply IH.
Qed.

Lemma length_snoc (d : string) (c : ascii) :
  String.length (d ++ String c "") = S (String.length d).
Proof.
  induction d as [| x d IH]; simpl; [reflexivity | now rewrite IH].
Qed.

(** The digits produced for [n] form a numeral of [n], put before [acc]. *)
Lemma digits_of_spec (fuel : nat) :
  forall (n : Z) (acc : string),
    (0 < fuel)%nat -> 0 <= n < 2 ^ Z.of_nat fuel ->
    exists d : string,
      JS.digits_of fuel n acc = (d ++ acc)%string /\
      d <> "" /\
      Decimal.all_digits d = true /\
      (forall c d', d = String c d' -> 0 < n -> c <> "0"%char) /\
      (forall a rest,
          Decimal.value_from a (d ++ rest) =
          Decimal.value_from (a * 10 ^ Z.of_nat (String.length d) + n) rest).
Proof.
  induction fuel as [| f IH]; intros n acc Hf Hn; [lia |].
  assert (Hmod : 0 <= n mod 10 < 10) by (apply Z.mod_pos_bound; lia).
  destruct (digit_value_char (n mod 10) Hmod) as [Hval Hdig].
  pose proof (Z.div_mod n 10 ltac:(lia)) as Hdm.
  cbn [JS.digits_of].
  destruct (n / 10 =? 0) eqn:Hq.
  - apply Z.eqb_eq in Hq.
    exists (String (JS.digit_char (n mod 10)) "").
    repeat split.
    + discriminate.
    + cbn [Decimal.all_digits]. now rewrite Hdig.
    + intros c d' E Hpos. injection E as <- _.
      intros Hz. apply digit_char_zero in Hz; lia.
    + intros a rest. cbn [String.append Decimal.value_from String.length].
      rewrite Hval. f_equal. change (Z.of_nat 1) with 1. lia.
  - apply Z.eqb_neq in Hq.
    assert (Hq0 : 0 < n / 10).
    { assert (0 <= n / 10) by (apply Z.div_pos; lia). lia. }
    assert (Hqb : n / 10 < 2 ^ Z.of_nat f).
    { apply Z.div_lt_upper_bound; [lia |].
      replace (Z.of_nat (S f)) with (Z.succ (Z.of_nat f)) in Hn by lia.
      rewrite Z.pow_succ_r in Hn by lia.
      assert (0 < 2 ^ Z.of_nat f) by (apply Z.pow_pos_nonneg; lia). lia. }
    assert (Hf' : (0 < f)%nat).
    { destruct f; [simpl in Hqb; lia | lia]. }
    destruct (IH (n / 10) (String (JS.digit_char (n mod 10)) acc) Hf'
                ltac:(lia)) as (d & Heq & Hne & Hall & Hlead & Hv).
    exists (d ++ String (JS.digit_char (n mod 10)) "")%string.
    repeat split.
    + rewrite Heq. apply append_cons_assoc.
    + destruct d; [congruence | discriminate].
    + now apply all_digits_snoc.
    + intros c d' E _. destruct d as [| x d0]; [congruence |].
      cbn [String.append] in E. injection E as <- _.
      apply (Hlead x d0 eq_refl Hq0).
    + intros a rest. rewrite <- append_cons_assoc, Hv.
      cbn [Decimal.value_from].
      rewrite Hval, length_snoc. f_equal.
      replace (Z.of_nat (S (String.length d)))
        with (Z.succ (Z.of_nat (String.length d))) by lia.
      rewrite Z.pow_succ_r by lia. lia.
Qed.

Lemma append_empty_r (s : string) : (s ++ "")%string = s.
Proof. induction s as [| c s IH]; simpl; [reflexivity | now rewrite IH]. Qed.

(** [Number::toString] of a natural number is its decimal numeral. *)
Lemma Number_toString_represents (n : Z) :
  0 <= n -> Decimal.represents n (JS.Number_toString n).
Proof.
  intros Hn. destruct (Z.eq_dec n 0) as [-> | Hnz].
  { repeat split; try reflexivity. discriminate. }
  unfold JS.Number_toString.
  destruct (n <? 0) eqn:Hneg; [apply Z.ltb_lt in Hneg; lia |].
  assert (Hb : 0 <= n < 2 ^ Z.of_nat (S (Z.to_nat (Z.log2 n)))).
  { split; [assumption |].
    replace (Z.of_nat (S (Z.to_nat (Z.log2 n)))) with (Z.succ (Z.log2 n))
      by (pose proof (Z.log2_nonneg n); lia).
    apply Z.log2_spec. lia. }
  destruct (digits_of_spec (S (Z.to_nat (Z.log2 n))) n "" ltac:(lia) Hb)
    as (d & Heq & Hne & Hall & Hlead & Hv).
  rewrite Heq, append_empty_r. repeat split; try assumption.
  - destruct d as [| c [| c' d']]; try reflexivity.
    cbn [Decimal.no_leading_zero].
    apply negb_true_iff. destruct (Ascii.eqb_spec c "0"%char) as [E | E];
      [| reflexivity].
    exfalso. apply (Hlead c (String c' d') eq_refl ltac:(lia) E).
  - specialize (Hv 0 ""). rewrite append_empty_r in Hv. rewrite Hv.
    cbn [Decimal.value_from]. lia.
Qed.

(** *** A natural number has one decimal numeral *)

Lemma value_from_acc (s : string) :
  forall a : Z,
    Decimal.value_from a s =
    a * 10 ^ Z.of_nat (String.length s) + Decimal.value_from 0 s.
Proof.
  induction s as [| c s IH]; intros a; cbn [Decimal.value_from String.length].
  - change (10 ^ Z.of_nat 0) with 1. lia.
  - rewrite (IH (10 * a + Decimal.digit_value c)),
      (IH (10 * 0 + Decimal.digit_value c)).
    rewrite Nat2Z.inj_succ, Z.pow_succ_r by lia. ring.
Qed.

Lemma is_digit_value (c : ascii) :
  Decimal.is_digit c = true -> 0 <= Decimal.digit_value c <= 9.
Proof.
  unfold Decimal.is_digit, Decimal.digit_value. intros H.
  apply andb_true_iff in H as [H1 H2].
  apply Nat.leb_le in H1, H2. lia.
Qed.

Lemma digit_value_inj (c c' : ascii) :
  Decimal.is_digit c = true -> Decimal.is_digit c' = true ->
  Decimal.digit_value c = Decimal.digit_value c' -> c = c'.
Proof.
  unfold Decimal.is_digit, Decimal.digit_value. intros H H' E.
  apply andb_true_iff in H as [H1 _]. apply andb_true_iff in H' as [H1' _].
  apply Nat.leb_le in H1, H1'.
  rewrite <- (ascii_nat_embedding c), <- (ascii_nat_embedding c').
  f_equal. lia.
Qed.

Lemma value_from_bounds (s : string) :
  Decimal.all_digits s = true ->
  0 <= Decimal.value_from 0 s < 10 ^ Z.of_nat (String.length s).
Proof.
  induction s as [| c s IH]; cbn [Decimal.all_digits]; intros H.
  - cbn. lia.
  - apply andb_true_iff in H as [Hc Hs]. specialize (IH Hs).
    apply is_digit_value in Hc.
    cbn [Decimal.value_from String.length].
    rewrite value_from_acc, Nat2Z.inj_succ, Z.pow_succ_r by lia.
    nia.
Qed.

Lemma value_from_leading (c : ascii) (s : string) :
  Decimal.all_digits (String c s) = true ->
  c <> "0"%char ->
  10 ^ Z.of_nat (String.length s) <= Decimal.value_from 0 (String c s).
Proof.
  cbn [Decimal.all_digits]. intros H Hc.
  apply andb_true_iff in H as [Hd Hs].
  pose proof (value_from_bounds s Hs) as Hb.
  pose proof (is_digit_value c Hd) as Hv.
  assert (Decimal.digit_value c <> 0).
  { intros E. apply Hc. apply digit_value_inj; [assumption | reflexivity |].
    rewrite E. reflexivity. }
  cbn [Decimal.value_from]. rewrite value_from_acc. nia.
Qed.

Lemma same_length_numerals (s : string) :
  forall s' : string,
    String.length s = String.length s' ->
    Decimal.all_digits s = true -> Decimal.all_digits s' = true ->
    Decimal.value_from 0 s = Decimal.value_from 0 s' ->
    s = s'.
Proof.
  induction s as [| c s IH]; intros [| c' s'] Hlen Hs Hs' Hv;
    try discriminate Hlen; [reflexivity |].
  cbn [String.length] in Hlen. injection Hlen as Hlen.
  cbn [Decimal.all_digits] in Hs, Hs'.
  apply andb_true_iff in Hs as [Hc Hs]. apply andb_true_iff in Hs' as [Hc' Hs'].
  cbn [Decimal.value_from] in Hv.
  rewrite (value_from_acc s), (value_from_acc s'), <- Hlen in Hv.
  pose proof (value_from_bounds s Hs) as Hb.
  pose proof (value_from_bounds s' Hs') as Hb'. rewrite <- Hlen in Hb'.
  assert (E : Decimal.digit_value c = Decimal.digit_value c') by nia.
  f_equal.
  - now apply digit_value_inj.
  - apply IH; try assumption. rewrite E in Hv. lia.
Qed.

Lemma shorter_numeral_smaller (n : Z) (s s' : string) :
  Decimal.represents n s -> Decimal.represents n s' ->
  ~ (String.length s < String.length s')%nat.
Proof.
  intros (Hne & Hd & _ & Hv) (_ & Hd' & Hl' & Hv') Hlt.
  pose proof (value_from_bounds s Hd) as Hb. rewrite Hv in Hb.
  destruct s as [| x s]; [congruence |].
  destruct s' as [| c [| c2 r]]; cbn [String.length] in Hlt; try lia.
  cbn [Decimal.no_leading_zero] in Hl'. apply negb_true_iff in Hl'.
  assert (Hc : c <> "0"%char).
  { intros ->. discriminate Hl'. }
  pose proof (value_from_leading c (String c2 r) Hd' Hc) as Hlow.
  rewrite Hv' in Hlow.
  assert (10 ^ Z.of_nat (String.length (String x s))
          <= 10 ^ Z.of_nat (String.length (String c2 r)))
    by (apply Z.pow_le_mono_r; cbn [String.length]; lia).
  lia.
Qed.

Lemma represents_unique (n : Z) (s s' : string) :
  Decimal.represents n s -> Decimal.represents n s' -> s = s'.
Proof.
  intros H H'.
  pose proof (shorter_numeral_smaller n s s' H H').
  pose proof (shorter_numeral_smaller n s' s H' H).
  destruct H as (_ & Hd & _ & Hv), H' as (_ & Hd' & _ & Hv').
  apply same_length_numerals; try assumption; [lia | congruence].
Qed.

(** ** The loops *)

Lemma for_loop_prints {Host Exn : Type} (line : Z -> string)
  (body : Z -> M Host Exn unit) (hi : Z) :
  (forall i w,
      body i w = (Normal tt, mkWorld (host w) (console w ++ [line i]))) ->
  forall (n fuel : nat) (i : Z) (w : World Host),
    Z.of_nat n = hi + 1 - i -> (n < fuel)%nat ->
    for_loop fuel (fun i => i <=? hi) (fun i => i + 1) body i w =
    (Normal tt, mkWorld (host w) (console w ++ map line (Zseq i n))).
Proof.
  intros Hbody. induction n as [| n IH]; intros fuel i w Hn Hfuel;
    (destruct fuel as [| fuel]; [lia |]); cbn [for_loop Zseq map].
  - replace (i <=? hi) with false by (symmetry; apply Z.leb_gt; lia).
    unfold ret. destruct w as [h c]. cbn [host console].
    now rewrite app_nil_r.
  - replace (i <=? hi) with true by (symmetry; apply Z.leb_le; lia).
    unfold bind. rewrite Hbody, IH by lia. cbn [host console].
    now rewrite <- app_assoc.
Qed.

Lemma loop_ts_prints {Host Exn : Type} (fuel : nat) (w : World Host) :
  (101 <= fuel)%nat ->
  @loop_ts Host Exn fuel w =
  (Normal tt, mkWorld (host w) (console w ++ map label_ts (Zseq 1 100))).
Proof.
  intros Hfuel. unfold loop_ts.
  apply (for_loop_prints label_ts body_ts 100); [reflexivity | lia | lia].
Qed.

Lemma fizzbuzz_bench_prints {Host Exn : Type} (fuel : nat) (w : World Host) :
  (101 <= fuel)%nat ->
  @fizzbuzz_bench Host Exn fuel w =
  (Normal tt, mkWorld (host w) (console w ++ map line_bench (Zseq 1 100))).
Proof.
  intros Hfuel. unfold fizzbuzz_bench.
  apply (for_loop_prints line_bench body_bench 100); [reflexivity | lia | lia].
Qed.

Lemma skipn_length_app {A : Type} (l l' : list A) :
  skipn (List.length l) (l ++ l') = l'.
Proof. induction l as [| x l IH]; simpl; [reflexivity | exact IH]. Qed.

Lemma printed_loop_ts {Host Exn : Type} (fuel : nat) (w : World Host) :
  (101 <= fuel)%nat ->
  printed (@loop_ts Host Exn fuel) w = map label_ts (Zseq 1 100).
Proof.
  intros Hfuel. unfold printed. rewrite loop_ts_prints by assumption.
  cbn [snd console]. apply skipn_length_app.
Qed.

Lemma printed_fizzbuzz_bench {Host Exn : Type} (fuel : nat) (w : World Host) :
  (101 <= fuel)%nat ->
  printed (@fizzbuzz_bench Host Exn fuel) w = map line_bench (Zseq 1 100).
Proof.
  intros Hfuel. unfold printed. rewrite fizzbuzz_bench_prints by assumption.
  cbn [snd console]. apply skipn_length_app.
Qed.

Lemma nth_error_map_Zseq {A : Type} (f : Z -> A) (n : nat) :
  forall (lo : Z) (k : nat),
    (k < n)%nat ->
    nth_error (map f (Zseq lo n)) k = Some (f (lo + Z.of_nat k)).
Proof.
  induction n as [| n IH]; intros lo k Hk; [lia |].
  destruct k as [| k]; cbn [Zseq map nth_error].
  - f_equal. f_equal. lia.
  - rewrite IH by lia. f_equal. f_equal. lia.
Qed.

(** The line of index [i - 1] is the line for [i]. *)
Lemma nth_line {A : Type} (f : Z -> A) (i : Z) :
  1 <= i <= 100 ->
  nth_error (map f (Zseq 1 100)) (Z.to_nat (i - 1)) = Some (f i).
Proof.
  intros Hi. rewrite nth_error_map_Zseq by lia. f_equal. f_equal. lia.
Qed.

(** ** The labels *)

Lemma label_ts_line_bench (i : Z) : label_ts i = line_bench i.
Proof.
  unfold label_ts, line_bench, output_bench, JS.or.
  destruct (Z.rem i 3 =? 0), (Z.rem i 5 =? 0); reflexivity.
Qed.

Lemma label_ts_cases (i : Z) :
  (Z.rem i 3 = 0 /\ Z.rem i 5 = 0 /\ label_ts i = "FizzBuzz") \/
  (Z.rem i 3 = 0 /\ Z.rem i 5 <> 0 /\ label_ts i = "Fizz") \/
  (Z.rem i 3 <> 0 /\ Z.rem i 5 = 0 /\ label_ts i = "Buzz") \/
  (Z.rem i 3 <> 0 /\ Z.rem i 5 <> 0 /\ label_ts i = JS.Number_toString i).
Proof.
  unfold label_ts.
  destruct (Z.eqb_spec (Z.rem i 3) 0), (Z.eqb_spec (Z.rem i 5) 0);
    cbn [String.append String.eqb Ascii.eqb Bool.eqb]; tauto.
Qed.

Lemma represents_nonempty (n : Z) (s : string) :
  Decimal.represents n s -> s <> "".
Proof. intros [H _]. exact H. Qed.

(** ** Binary64 subtraction of ordered timestamps *)

Lemma digits2_pos_bounds (m : positive) :
  2 ^ (Zpos (digits2_pos m) - 1) <= Zpos m < 2 ^ Zpos (digits2_pos m).
Proof.
  induction m as [m IH | m IH |]; cbn [digits2_pos].
  - rewrite Pos2Z.inj_succ.
    replace (Z.succ (Zpos (digits2_pos m)) - 1)
      with (Z.succ (Zpos (digits2_pos m) - 1)) by lia.
    rewrite !Z.pow_succ_r by lia. lia.
  - rewrite Pos2Z.inj_succ.
    replace (Z.succ (Zpos (digits2_pos m)) - 1)
      with (Z.succ (Zpos (digits2_pos m) - 1)) by lia.
    rewrite !Z.pow_succ_r by lia. lia.
  - simpl. lia.
Qed.

Lemma iter_xO_value (d m : positive) :
  Zpos (Pos.iter xO m d) = Zpos m * 2 ^ Zpos d.
Proof.
  induction d as [| d IH] using Pos.peano_ind.
  - cbn [Pos.iter]. change (2 ^ 1) with 2. lia.
  - rewrite Pos.iter_succ, Pos2Z.inj_xO, IH, Pos2Z.inj_succ.
    rewrite Z.pow_succ_r by lia. lia.
Qed.

Lemma shl_align_value (m : positive) (e ez : Z) :
  ez <= e -> Zpos (fst (shl_align m e ez)) = Zpos m * 2 ^ (e - ez).
Proof.
  intros Hle. unfold shl_align.
  destruct (ez - e) as [| d | d] eqn:Hd.
  - replace (e - ez) with 0 by lia. cbn [fst]. lia.
  - lia.
  - cbn [fst]. rewrite iter_xO_value. f_equal. f_equal. lia.
Qed.

(** Between two well-formed finite values the exponent decides. *)
Lemma bounded_exponent_lt (m1 m2 : positive) (e1 e2 : Z) :
  bounded JS.prec JS.emax m1 e1 = true ->
  bounded JS.prec JS.emax m2 e2 = true ->
  e1 < e2 ->
  Zpos m1 < Zpos m2 * 2 ^ (e2 - e1).
Proof.
  unfold bounded, canonical_mantissa, fexp, emin, JS.prec, JS.emax.
  intros H1 H2 Hlt.
  apply andb_true_iff in H1 as [H1 _]. apply andb_true_iff in H2 as [H2 _].
  apply Z.eqb_eq in H1, H2.
  pose proof (digits2_pos_bounds m1) as [_ Hm1].
  pose proof (digits2_pos_bounds m2) as [Hm2 _].
  assert (Hd2 : Zpos (digits2_pos m2) = 53) by lia.
  assert (Hd1 : Zpos (digits2_pos m1) <= 53) by lia.
  rewrite Hd2 in Hm2.
  assert (Hp1 : 2 ^ Zpos (digits2_pos m1) <= 2 ^ 53)
    by (apply Z.pow_le_mono_r; lia).
  assert (Hp2 : 2 ^ 1 <= 2 ^ (e2 - e1)) by (apply Z.pow_le_mono_r; lia).
  change (2 ^ 1) with 2 in Hp2. change (2 ^ (53 - 1)) with (2 ^ 52) in Hm2.
  change (2 ^ 53) with (2 * 2 ^ 52) in Hp1.
  assert (0 < 2 ^ 52) by reflexivity.
  nia.
Qed.

Lemma shr_1_nonneg (mrs : shr_record) :
  0 <= shr_m mrs -> 0 <= shr_m (shr_1 mrs).
Proof.
  destruct mrs as [m r s]. cbn [shr_m]. intros Hm.
  destruct m as [| [p | p |] | p]; cbn [shr_1 shr_m]; lia.
Qed.

Lemma iter_shr_1_nonneg (p : positive) :
  forall mrs : shr_record,
    0 <= shr_m mrs -> 0 <= shr_m (iter_pos shr_1 p mrs).
Proof.
  induction p as [p IH | p IH |]; intros mrs Hm; cbn [iter_pos].
  - apply IH, IH, shr_1_nonneg, Hm.
  - apply IH, IH, Hm.
  - apply shr_1_nonneg, Hm.
Qed.

Lemma shr_fexp_nonneg (m e : Z) (l : location) :
  0 <= m -> 0 <= shr_m (fst (shr_fexp JS.prec JS.emax m e l)).
Proof.
  intros Hm. unfold shr_fexp, shr.
  assert (H0 : 0 <= shr_m (shr_record_of_loc m l))
    by (destruct l as [| []]; exact Hm).
  destruct (fexp JS.prec JS.emax (Zdigits2 m + e) - e); cbn [fst];
    try exact H0.
  apply iter_shr_1_nonneg, H0.
Qed.

Lemma round_nearest_even_nonneg (m : Z) (l : location) :
  0 <= m -> 0 <= round_nearest_even m l.
Proof.
  intros Hm. destruct l as [| []]; cbn [round_nearest_even];
    try destruct (Z.even m); lia.
Qed.

Lemma plus_signed_ge_zero (x : JS.number) :
  plus_signed x -> JS.ge x JS.zero = true.
Proof.
  intros [-> | [-> | (m & e & ->)]]; reflexivity.
Qed.

Lemma binary_round_aux_plus (m e : Z) (l : location) :
  0 <= m -> plus_signed (binary_round_aux JS.prec JS.emax false m e l).
Proof.
  intros Hm. unfold binary_round_aux.
  pose proof (shr_fexp_nonneg m e l Hm) as H1.
  destruct (shr_fexp JS.prec JS.emax m e l) as [mrs' e'].
  cbn [fst] in H1.
  pose proof (shr_fexp_nonneg _ e' loc_Exact
                (round_nearest_even_nonneg _ (loc_of_shr_record mrs') H1))
    as H2.
  destruct (shr_fexp JS.prec JS.emax _ e' loc_Exact) as [mrs'' e''].
  cbn [fst] in H2.
  destruct (shr_m mrs'') as [| p | p].
  - now left.
  - destruct (e'' <=? JS.emax - JS.prec).
    + right. right. now exists p, e''.
    + right. now left.
  - lia.
Qed.

Lemma binary_normalize_plus (z e : Z) :
  0 <= z -> plus_signed (binary_normalize JS.prec JS.emax z e false).
Proof.
  intros Hz. destruct z as [| p | p]; cbn [binary_normalize].
  - now left.
  - unfold binary_round.
    destruct (shl_align p e _) as [mz ez].
    apply binary_round_aux_plus. lia.
  - lia.
Qed.

(** If [b >= a] holds between two timestamps then [b - a >= 0] holds. *)
Lemma sub_ge_zero (a b : JS.number) :
  timestamp a = true -> timestamp b = true ->
  JS.ge b a = true ->
  JS.ge (JS.sub b a) JS.zero = true.
Proof.
  unfold timestamp, JS.well_formed. intros Ha Hb Hge.
  apply andb_true_iff in Ha as [Ha Fa]. apply andb_true_iff in Hb as [Hb Fb].
  destruct a as [sa | sa | | sa ma ea]; try discriminate Fa;
    destruct b as [sb | sb | | sb mb eb]; try discriminate Fb;
    clear Fa Fb.
  - destruct sa, sb; reflexivity.
  - destruct sb; [discriminate Hge | reflexivity].
  - destruct sa; [reflexivity | discriminate Hge].
  - cbn [valid_binary] in Ha, Hb.
    apply plus_signed_ge_zero. unfold JS.sub. cbn [SFsub].
    apply binary_normalize_plus.
    rewrite !shl_align_value by lia.
    assert (Hpa : 0 < 2 ^ (ea - Z.min eb ea))
      by (apply Z.pow_pos_nonneg; lia).
    assert (Hpb : 0 < 2 ^ (eb - Z.min eb ea))
      by (apply Z.pow_pos_nonneg; lia).
    unfold JS.ge in Hge. cbn [SFcompare] in Hge.
    change (Pos.compare_cont Eq mb ma)
      with (Z.compare (Zpos mb) (Zpos ma)) in Hge.
    destruct sb, sa; cbn [cond_Zopp]; try discriminate Hge.
    + (* both negative: the mantissas compare the other way round *)
      destruct (Z.compare_spec eb ea) as [E | L | G]; try discriminate Hge.
      * subst eb. rewrite Z.min_id, Z.sub_diag. change (2 ^ 0) with 1.
        destruct (Z.compare_spec (Zpos mb) (Zpos ma)) as [E | L | G];
          try discriminate Hge; lia.
      * rewrite Z.min_l by lia. rewrite Z.sub_diag. change (2 ^ 0) with 1.
        pose proof (bounded_exponent_lt mb ma eb ea Hb Ha L). lia.
    + (* b positive, a negative *)
      nia.
    + (* both positive *)
      destruct (Z.compare_spec eb ea) as [E | L | G]; try discriminate Hge.
      * subst eb. rewrite Z.min_id, Z.sub_diag. change (2 ^ 0) with 1.
        destruct (Z.compare_spec (Zpos mb) (Zpos ma)) as [E | L | G];
          try discriminate Hge; lia.
      * rewrite Z.min_r by lia. rewrite Z.sub_diag. change (2 ^ 0) with 1.
        pose proof (bounded_exponent_lt ma mb ea eb Ha Hb ltac:(lia)). lia.
Qed.

(** ** FizzBuzz: what the two loops print *)

(** C1: with enough loop budget both FizzBuzz loops complete, and for
    i = 1, ..., 15 the labels they compute, which are also the first fifteen
    lines they print, are
    1, 2, Fizz, 4, Buzz, Fizz, 7, 8, Fizz, Buzz, 11, Fizz, 13, 14, FizzBuzz,
    in that order. *)
Theorem fizzbuzz_first_fifteen (Host Exn : Type) (w : World Host)
  (fuel : nat) :
  (101 <= fuel)%nat ->
  map label_ts (Zseq 1 15) = expected_15 /\
  map line_bench (Zseq 1 15) = expected_15 /\
  fst (@loop_ts Host Exn fuel w) = Normal tt /\
  firstn 15 (printed (@loop_ts Host Exn fuel) w) = expected_15 /\
  fst (@fizzbuzz_bench Host Exn fuel w) = Normal tt /\
  firstn 15 (printed (@fizzbuzz_bench Host Exn fuel) w) = expected_15.
Proof.
  intros Hfuel.
  rewrite printed_loop_ts, printed_fizzbuzz_bench by assumption.
  rewrite loop_ts_prints, fizzbuzz_bench_prints by assumption.
  repeat split; vm_compute; reflexivity.
Qed.

Lemma fizzbuzz_first_fifteen_witness :
  (101 <= 101)%nat /\
  firstn 15 (printed (@loop_ts nat stub_error 101) (stub_world 0))
  = expected_15.
Proof.
  split; [lia |].
  destruct (fizzbuzz_first_fifteen nat stub_error (stub_world 0) 101
              ltac:(lia)) as (_ & _ & _ & H & _).
  exact H.
Defined.

(** C6: for i in 1..100 divisible by neither 3 nor 5, the line printed for i
    is the decimal numeral of i (digits only, no leading zero, value i; there
    is no other such string), in the script that assigns [i.toString()] and
    in the one that prints [output || i]. *)
Theorem fallback_is_decimal (Host Exn : Type) (w : World Host) (fuel : nat)
  (i : Z) :
  (101 <= fuel)%nat ->
  1 <= i <= 100 ->
  Z.rem i 3 <> 0 ->
  Z.rem i 5 <> 0 ->
  exists s : string,
    Decimal.represents i s /\
    (forall s' : string, Decimal.represents i s' -> s' = s) /\
    label_ts i = s /\
    line_bench i = s /\
    nth_error (printed (@loop_ts Host Exn fuel) w) (Z.to_nat (i - 1))
    = Some s /\
    nth_error (printed (@fizzbuzz_bench Host Exn fuel) w) (Z.to_nat (i - 1))
    = Some s.
Proof.
  intros Hfuel Hi H3 H5. exists (JS.Number_toString i).
  assert (Hl : label_ts i = JS.Number_toString i).
  { destruct (label_ts_cases i) as [H | [H | [H | H]]]; tauto. }
  assert (Hr : Decimal.represents i (JS.Number_toString i))
    by (apply Number_toString_represents; lia).
  rewrite printed_loop_ts, printed_fizzbuzz_bench by assumption.
  rewrite !nth_line by assumption.
  rewrite <- label_ts_line_bench, Hl.
  split; [exact Hr |]. split; [| repeat split].
  intros s' Hs'. exact (represents_unique i s' _ Hs' Hr).
Qed.

Lemma fallback_is_decimal_witness :
  exists s : string,
    Decimal.represents 98 s /\
    (forall s' : string, Decimal.represents 98 s' -> s' = s) /\
    label_ts 98 = s /\
    line_bench 98 = s /\
    nth_error (printed (@loop_ts nat stub_error 101) (stub_world 0))
      (Z.to_nat (98 - 1)) = Some s /\
    nth_error (printed (@fizzbuzz_bench nat stub_error 101) (stub_world 0))
      (Z.to_nat (98 - 1)) = Some s.
Proof.
  apply (fallback_is_decimal nat stub_error (stub_world 0) 101 98).
  - lia.
  - lia.
  - vm_compute. discriminate.
  - vm_compute. discriminate.
Defined.

(** C9: the two scripts print the same hundred lines; for every i in 1..100
    the line printed for i by examples/fizzbuzz.ts is, as a string, the line
    printed for i by the benchmark. *)
Theorem fizzbuzz_scripts_agree (Host Exn : Type) (w : World Host)
  (fuel : nat) (i : Z) :
  (101 <= fuel)%nat ->
  1 <= i <= 100 ->
  nth_error (printed (@loop_ts Host Exn fuel) w) (Z.to_nat (i - 1))
  = Some (label_ts i) /\
  nth_error (printed (@fizzbuzz_bench Host Exn fuel) w) (Z.to_nat (i - 1))
  = Some (line_bench i) /\
  label_ts i = line_bench i /\
  printed (@loop_ts Host Exn fuel) w
  = printed (@fizzbuzz_bench Host Exn fuel) w.
Proof.
  intros Hfuel Hi.
  rewrite printed_loop_ts, printed_fizzbuzz_bench by assumption.
  rewrite !nth_line by assumption.
  split; [reflexivity |]. split; [reflexivity |]. split.
  - apply label_ts_line_bench.
  - apply map_ext. intros a. apply label_ts_line_bench.
Qed.

Lemma fizzbuzz_scripts_agree_witness :
  label_ts 7 = line_bench 7 /\ label_ts 15 = line_bench 15.
Proof.
  destruct (fizzbuzz_scripts_agree nat stub_error (stub_world 0) 101 7
              ltac:(lia) ltac:(lia)) as (_ & _ & H7 & _).
  destruct (fizzbuzz_scripts_agree nat stub_error (stub_world 0) 101 15
              ltac:(lia) ltac:(lia)) as (_ & _ & H15 & _).
  exact (conj H7 H15).
Defined.

(** C10: for every i in 1..100 neither loop prints an empty line: when 3 or
    5 divides i the line is Fizz, Buzz or FizzBuzz, and otherwise it is the
    non-empty decimal numeral of i. *)
Theorem fizzbuzz_line_nonempty (Host Exn : Type) (w : World Host)
  (fuel : nat) (i : Z) :
  (101 <= fuel)%nat ->
  1 <= i <= 100 ->
  exists s : string,
    nth_error (printed (@loop_ts Host Exn fuel) w) (Z.to_nat (i - 1))
    = Some s /\
    nth_error (printed (@fizzbuzz_bench Host Exn fuel) w) (Z.to_nat (i - 1))
    = Some s /\
    s <> "" /\
    (Z.rem i 3 = 0 \/ Z.rem i 5 = 0 ->
     s = "Fizz" \/ s = "Buzz" \/ s = "FizzBuzz") /\
    (Z.rem i 3 <> 0 /\ Z.rem i 5 <> 0 ->
     s = JS.Number_toString i /\ output_bench i = "").
Proof.
  intros Hfuel Hi. exists (label_ts i).
  rewrite printed_loop_ts, printed_fizzbuzz_bench by assumption.
  rewrite !nth_line by assumption.
  rewrite <- label_ts_line_bench.
  split; [reflexivity |]. split; [reflexivity |].
  assert (Hne : JS.Number_toString i <> "").
  { apply (represents_nonempty i), Number_toString_represents. lia. }
  unfold output_bench.
  destruct (label_ts_cases i) as [H | [H | [H | H]]];
    destruct H as (H3 & H5 & ->).
  - repeat split; try discriminate; try tauto.
  - repeat split; try discriminate; try tauto.
  - repeat split; try discriminate; try tauto.
  - repeat split; try assumption; try tauto.
    destruct (Z.eqb_spec (Z.rem i 3) 0), (Z.eqb_spec (Z.rem i 5) 0);
      try contradiction. reflexivity.
Qed.

Lemma fizzbuzz_line_nonempty_witness :
  exists s : string,
    nth_error (printed (@loop_ts nat stub_error 101) (stub_world 0))
      (Z.to_nat (30 - 1)) = Some s /\
    nth_error (printed (@fizzbuzz_bench nat stub_error 101) (stub_world 0))
      (Z.to_nat (30 - 1)) = Some s /\
    s <> "" /\
    (Z.rem 30 3 = 0 \/ Z.rem 30 5 = 0 ->
     s = "Fizz" \/ s = "Buzz" \/ s = "FizzBuzz") /\
    (Z.rem 30 3 <> 0 /\ Z.rem 30 5 <> 0 ->
     s = JS.Number_toString 30 /\ output_bench 30 = "").
Proof.
  apply (fizzbuzz_line_nonempty nat stub_error (stub_world 0) 101 30); lia.
Defined.

(** ** The synthetic clock meets the assumptions *)

Lemma stub_monotonic : monotonic_host stub_now.
Proof.
  intros h t1 h1 t2 h2 H1 H2.
  do 4 (destruct h as [| h];
        [vm_compute in H1; injection H1 as <- <-;
         vm_compute in H2; try discriminate H2;
         injection H2 as <- <-; reflexivity |]).
  vm_compute in H1. destruct h; discriminate H1.
Qed.

Lemma stub_readings_ok (h : nat) (t : JS.number) (h' : nat) :
  stub_now h = (Normal t, h') ->
  timestamp t = true /\ JS.ge t JS.zero = true.
Proof.
  intros H.
  do 4 (destruct h as [| h];
        [vm_compute in H; injection H as <- <-; split; reflexivity |]).
  vm_compute in H. destruct h; discriminate H.
Qed.

Lemma stub_nonnegative : nonnegative_host stub_now.
Proof. intros h t h' H. apply (stub_readings_ok h t h' H). Qed.

Lemma stub_yields_timestamps : host_yields_timestamps stub_now.
Proof. intros h t h' H. apply (stub_readings_ok h t h' H). Qed.

(** ** The clock accessor *)

Section Accessor.

Context {Host Exn : Type}.
Variable internal_now : Host -> completion Exn JS.number * Host.

Lemma performance_now_unfold (w : World Host) :
  performance.now internal_now w =
  (fst (internal_now (host w)),
   mkWorld (snd (internal_now (host w))) (console w)).
Proof.
  unfold performance.now, bind, performance.call_internal_now, ret.
  destruct (internal_now (host w)) as [[t | e |] h]; reflexivity.
Qed.

Lemma performance_now_normal (w w' : World Host) (t : JS.number) :
  performance.now internal_now w = (Normal t, w') ->
  internal_now (host w) = (Normal t, host w') /\ console w' = console w.
Proof.
  rewrite performance_now_unfold. intros H. injection H as Ht Hw.
  subst w'. cbn [host console].
  destruct (internal_now (host w)) as [c h]. cbn [fst snd] in *.
  now subst c.
Qed.

End Accessor.

(** C2: [performance.now()] returns exactly what [internal_now()] returns,
    whatever Number that is, fractional part included; it leaves the host
    clock as the primitive left it and does not touch the console. *)
Theorem now_is_pass_through (Host Exn : Type)
  (internal_now : Host -> completion Exn JS.number * Host)
  (w : World Host) :
  fst (performance.now internal_now w) = fst (internal_now (host w)) /\
  host (snd (performance.now internal_now w)) = snd (internal_now (host w)) /\
  console (snd (performance.now internal_now w)) = console w.
Proof.
  rewrite performance_now_unfold. repeat split.
Qed.

(** C3: when [internal_now()] throws, [performance.now()] throws the same
    exception; it never turns a failed reading into a returned value. *)
Theorem now_propagates_failure (Host Exn : Type)
  (internal_now : Host -> completion Exn JS.number * Host)
  (w : World Host) (e : Exn) (h' : Host) :
  internal_now (host w) = (Throw e, h') ->
  performance.now internal_now w = (Throw e, mkWorld h' (console w)) /\
  forall (v : JS.number) (w' : World Host),
    performance.now internal_now w <> (Normal v, w').
Proof.
  intros H. rewrite performance_now_unfold, H. cbn [fst snd].
  split; [reflexivity | discriminate].
Qed.

Lemma now_propagates_failure_witness :
  performance.now stub_now (stub_world 4)
  = (Throw ClockUnavailable, mkWorld 5%nat []) /\
  forall (v : JS.number) (w' : World nat),
    performance.now stub_now (stub_world 4) <> (Normal v, w').
Proof.
  apply (now_propagates_failure nat stub_error stub_now (stub_world 4)
           ClockUnavailable 5%nat).
  reflexivity.
Defined.

(** C4: over a host clock whose successive readings never decrease, two
    successive calls [t1 = now(); t2 = now()] give [t2 >= t1]. *)
Theorem now_monotonic (Host Exn : Type)
  (internal_now : Host -> completion Exn JS.number * Host)
  (w w1 w2 : World Host) (t1 t2 : JS.number) :
  monotonic_host internal_now ->
  performance.now internal_now w = (Normal t1, w1) ->
  performance.now internal_now w1 = (Normal t2, w2) ->
  JS.ge t2 t1 = true.
Proof.
  intros Hmono H1 H2.
  apply performance_now_normal in H1 as [H1 _].
  apply performance_now_normal in H2 as [H2 _].
  exact (Hmono _ _ _ _ _ H1 H2).
Qed.

Lemma now_monotonic_witness :
  JS.ge (scaled 2 (-1)) (scaled 1 (-1)) = true.
Proof.
  apply (now_monotonic nat stub_error stub_now
           (stub_world 0) (stub_world 1) (stub_world 2)).
  - exact stub_monotonic.
  - reflexivity.
  - reflexivity.
Defined.

(** C5: over a host clock whose readings are non-negative, every value
    returned by [now()] satisfies [now() >= 0]. *)
Theorem now_nonnegative (Host Exn : Type)
  (internal_now : Host -> completion Exn JS.number * Host)
  (w w' : World Host) (t : JS.number) :
  nonnegative_host internal_now ->
  performance.now internal_now w = (Normal t, w') ->
  JS.ge t JS.zero = true.
Proof.
  intros Hpos H. apply performance_now_normal in H as [H _].
  exact (Hpos _ _ _ H).
Qed.

Lemma now_nonnegative_witness :
  JS.ge (scaled 3 (-1)) JS.zero = true.
Proof.
  apply (now_nonnegative nat stub_error stub_now
           (stub_world 2) (stub_world 3)).
  - exact stub_nonnegative.
  - reflexivity.
Defined.

(** C8: a call to [now()] writes nothing to the console and changes nothing
    but the clock of the host, so a stateless operation returns the same
    value after a call to [now()] as without it. *)
Theorem now_has_no_side_effect (Host Exn A : Type)
  (internal_now : Host -> completion Exn JS.number * Host)
  (f : M Host Exn A) (w : World Host) :
  stateless f ->
  console (snd (performance.now internal_now w)) = console w /\
  fst (f (snd (performance.now internal_now w))) = fst (f w).
Proof.
  intros Hf. rewrite performance_now_unfold. cbn [snd console].
  split; [reflexivity | apply Hf].
Qed.

Lemma body_bench_stateless (Host Exn : Type) (i : Z) :
  stateless (@body_bench Host Exn i).
Proof. intros w h. reflexivity. Qed.

Lemma now_has_no_side_effect_witness :
  console (snd (performance.now stub_now (stub_world 1))) = [] /\
  fst (body_bench 7 (snd (performance.now stub_now (stub_world 1))))
  = fst (@body_bench nat stub_error 7 (stub_world 1)).
Proof.
  apply (now_has_no_side_effect nat stub_error unit stub_now
           (body_bench 7) (stub_world 1)).
  apply body_bench_stateless.
Defined.

(** ** The timed script *)

Section Timed.

Context {Host Exn : Type}.
Variable internal_now : Host -> completion Exn JS.number * Host.
Variable Number_toString_double : JS.number -> string.

(** What examples/fizzbuzz.ts does when both clock readings succeed. *)
Lemma fizzbuzz_ts_run (fuel : nat) (w : World Host)
  (start end_ : JS.number) (h1 h2 : Host) :
  (101 <= fuel)%nat ->
  internal_now (host w) = (Normal start, h1) ->
  internal_now h1 = (Normal end_, h2) ->
  fizzbuzz_ts internal_now Number_toString_double fuel w =
  (Normal tt,
   mkWorld h2
     (((console w ++ map label_ts (Zseq 1 100))
       ++ [("End: " ++ Number_toString_double end_)%string])
      ++ [("Execution time: "
           ++ Number_toString_double (JS.sub end_ start) ++ "ms")%string])).
Proof.
  intros Hfuel H1 H2. unfold fizzbuzz_ts, bind.
  rewrite performance_now_unfold, H1. cbn [fst snd].
  rewrite loop_ts_prints by assumption.
  rewrite performance_now_unfold. cbn [host console]. rewrite H2.
  cbn [fst snd]. reflexivity.
Qed.

(** A failed first reading ends the script before anything is printed. *)
Lemma fizzbuzz_ts_clock_unavailable (fuel : nat) (w : World Host)
  (e : Exn) (h1 : Host) :
  internal_now (host w) = (Throw e, h1) ->
  fizzbuzz_ts internal_now Number_toString_double fuel w =
  (Throw e, mkWorld h1 (console w)).
Proof.
  intros H1. unfold fizzbuzz_ts, bind.
  rewrite performance_now_unfold, H1. reflexivity.
Qed.

End Timed.

(** C7, amended: in examples/fizzbuzz.ts, over a host clock that is
    monotonic and whose readings are timestamps (finite binary64 Numbers),
    when [start] is read before the 1..100 loop and [end] after it, the
    script completes, its last line reports [end - start], and
    [end - start >= 0]. *)
Theorem fizzbuzz_elapsed_nonnegative (Host Exn : Type)
  (internal_now : Host -> completion Exn JS.number * Host)
  (Number_toString_double : JS.number -> string)
  (fuel : nat) (w : World Host) (start end_ : JS.number) (h1 h2 : Host) :
  monotonic_host internal_now ->
  host_yields_timestamps internal_now ->
  (101 <= fuel)%nat ->
  internal_now (host w) = (Normal start, h1) ->
  internal_now h1 = (Normal end_, h2) ->
  fst (fizzbuzz_ts internal_now Number_toString_double fuel w) = Normal tt /\
  last (printed (fizzbuzz_ts internal_now Number_toString_double fuel) w) ""
  = ("Execution time: "
     ++ Number_toString_double (JS.sub end_ start) ++ "ms")%string /\
  JS.ge (JS.sub end_ start) JS.zero = true.
Proof.
  intros Hmono Hts Hfuel H1 H2.
  unfold printed.
  rewrite (fizzbuzz_ts_run internal_now Number_toString_double fuel w
             start end_ h1 h2 Hfuel H1 H2).
  cbn [fst snd console].
  split; [reflexivity |]. split.
  - rewrite <- !app_assoc, skipn_length_app, !app_assoc.
    apply last_last.
  - apply sub_ge_zero.
    + exact (Hts _ _ _ H1).
    + exact (Hts _ _ _ H2).
    + exact (Hmono _ _ _ _ _ H1 H2).
Qed.

Lemma fizzbuzz_elapsed_nonnegative_witness :
  JS.ge (JS.sub (scaled 2 (-1)) (scaled 1 (-1))) JS.zero = true.
Proof.
  apply (fizzbuzz_elapsed_nonnegative nat stub_error stub_now
           (fun _ => "t") 101 (stub_world 0)
           (scaled 1 (-1)) (scaled 2 (-1)) 1%nat 2%nat).
  - exact stub_monotonic.
  - exact stub_yields_timestamps.
  - lia.
  - reflexivity.
  - reflexivity.
Defined.

(** With monotonicity alone the difference can fail to be [>= 0]: the clock
    stuck at positive infinity is monotonic, both readings of
    examples/fizzbuzz.ts succeed on it, the script completes, and the
    difference it reports is [Infinity - Infinity], that is NaN, for which
    [>= 0] is false. *)
Lemma fizzbuzz_elapsed_nan_on_stuck_clock :
  monotonic_host stuck_now /\
  stuck_now (host (stub_world 0)) = (Normal (S754_infinity false), 1%nat) /\
  stuck_now 1%nat = (Normal (S754_infinity false), 2%nat) /\
  fst (fizzbuzz_ts stuck_now
         (fun x => match x with S754_nan => "NaN" | _ => "t" end)
         101 (stub_world 0)) = Normal tt /\
  last (printed (fizzbuzz_ts stuck_now
                   (fun x => match x with S754_nan => "NaN" | _ => "t" end)
                   101) (stub_world 0)) ""
  = "Execution time: NaNms" /\
  JS.ge (JS.sub (S754_infinity false) (S754_infinity false)) JS.zero = false.
Proof.
  split.
  { intros h t1 h1 t2 h2 H1 H2. unfold stuck_now in H1, H2.
    injection H1 as <- _. injection H2 as <- _. reflexivity. }
  split; [reflexivity |]. split; [reflexivity |].
  split; [vm_compute; reflexivity |].
  split; [vm_compute; reflexivity | reflexivity].
Qed.

(** Why the readings have to be timestamps: a clock stuck at positive
    infinity is monotonic, and the difference of its readings is NaN. *)
Remark stuck_clock_difference :
  monotonic_host stuck_now /\
  JS.sub (S754_infinity false) (S754_infinity false) = S754_nan /\
  JS.ge S754_nan JS.zero = false.
Proof.
  split; [| split; reflexivity].
  intros h t1 h1 t2 h2 H1 H2. unfold stuck_now in *.
  injection H1 as <- _. injection H2 as <- _. reflexivity.
Qed.

(** On the synthetic clock: the first reading is half a millisecond and
    reaches the caller of [now()] as it is. *)
Example now_keeps_half_millisecond :
  performance.now stub_now (stub_world 0)
  = (Normal (S754_finite false 4503599627370496 (-53)), stub_world 1).
Proof. reflexivity. Qed.

(** On the synthetic clock: two readings around an empty body differ by the
    increment of the clock. *)
Example stub_elapsed_is_increment :
  forall t1 t2 w1 w2,
    performance.now stub_now (stub_world 0) = (Normal t1, w1) ->
    performance.now stub_now w1 = (Normal t2, w2) ->
    JS.sub t2 t1 = scaled 1 (-1).
Proof.
  intros t1 t2 w1 w2 H1. vm_compute in H1. injection H1 as <- <-.
  intros H2. vm_compute in H2. injection H2 as <- _. reflexivity.
Qed.

(** ** Further properties of the scripts *)

Lemma skipn_length_nil {A : Type} (l : list A) :
  skipn (List.length l) l = [].
Proof. induction l as [| x l IH]; simpl; [reflexivity | exact IH]. Qed.

Lemma length_map_Zseq {A : Type} (f : Z -> A) (n : nat) :
  forall i : Z, List.length (map f (Zseq i n)) = n.
Proof.
  induction n as [| n IH]; intros i; cbn [Zseq map List.length];
    [reflexivity | now rewrite IH].
Qed.

(** With any loop budget, a loop whose body only prints leaves the clock
    alone, keeps the lines already on the console and does not throw. *)
Lemma for_loop_frame {Host Exn : Type} (line : Z -> string)
  (body : Z -> M Host Exn unit) (test : Z -> bool) (update : Z -> Z) :
  (forall i w,
      body i w = (Normal tt, mkWorld (host w) (console w ++ [line i]))) ->
  forall (fuel : nat) (i : Z) (w : World Host),
    exists l : list string,
      (fst (for_loop fuel test update body i w) = Normal tt \/
       fst (for_loop fuel test update body i w) = OutOfFuel) /\
      snd (for_loop fuel test update body i w)
      = mkWorld (host w) (console w ++ l).
Proof.
  intros Hbody. induction fuel as [| fuel IH]; intros i w; cbn [for_loop].
  - exists []. cbn [fst snd]. rewrite app_nil_r. destruct w. auto.
  - destruct (test i).
    + unfold bind. rewrite Hbody.
      destruct (IH (update i) (mkWorld (host w) (console w ++ [line i])))
        as (l & Hc & Hs).
      exists (line i :: l).
      destruct (for_loop fuel test update body (update i) _) as [c w'].
      cbn [fst snd host console] in *. subst w'.
      rewrite <- app_assoc. cbn [app].
      destruct Hc as [-> | ->]; auto.
    + exists []. unfold ret. cbn [fst snd]. rewrite app_nil_r.
      destruct w. auto.
Qed.

Lemma all_digits_not_word (s : string) :
  Decimal.all_digits s = true ->
  s <> "Fizz" /\ s <> "Buzz" /\ s <> "FizzBuzz".
Proof.
  intros H. repeat split; intros ->; vm_compute in H; discriminate H.
Qed.

Lemma sub_self (t : JS.number) :
  JS.is_finite t = true -> JS.sub t t = S754_zero false.
Proof.
  destruct t as [s | s | | s m e]; try discriminate; intros _.
  - destruct s; reflexivity.
  - unfold JS.sub. cbn [SFsub]. rewrite Z.sub_diag. reflexivity.
Qed.

(** X1: when both clock readings succeed, examples/fizzbuzz.ts completes
    having read the clock exactly twice and printed 102 lines: the hundred
    FizzBuzz lines, whatever the readings are, then the line of [end] and
    the line of [end - start]. *)
Theorem timed_script_output (Host Exn : Type)
  (internal_now : Host -> completion Exn JS.number * Host)
  (Number_toString_double : JS.number -> string)
  (fuel : nat) (w : World Host) (start end_ : JS.number) (h1 h2 : Host) :
  (101 <= fuel)%nat ->
  internal_now (host w) = (Normal start, h1) ->
  internal_now h1 = (Normal end_, h2) ->
  fst (fizzbuzz_ts internal_now Number_toString_double fuel w) = Normal tt /\
  host (snd (fizzbuzz_ts internal_now Number_toString_double fuel w)) = h2 /\
  printed (fizzbuzz_ts internal_now Number_toString_double fuel) w
  = map label_ts (Zseq 1 100)
    ++ [("End: " ++ Number_toString_double end_)%string;
        ("Execution time: "
         ++ Number_toString_double (JS.sub end_ start) ++ "ms")%string] /\
  List.length (printed (fizzbuzz_ts internal_now Number_toString_double fuel) w)
  = 102%nat.
Proof.
  intros Hfuel H1 H2. unfold printed.
  rewrite (fizzbuzz_ts_run internal_now Number_toString_double fuel w
             start end_ h1 h2 Hfuel H1 H2).
  cbn [fst snd host console].
  rewrite <- !app_assoc, skipn_length_app. cbn [app].
  split; [reflexivity |]. split; [reflexivity |]. split; [reflexivity |].
  rewrite length_app, length_map_Zseq. reflexivity.
Qed.

Lemma timed_script_output_witness :
  fst (fizzbuzz_ts stub_now (fun _ => "t") 101 (stub_world 0)) = Normal tt /\
  host (snd (fizzbuzz_ts stub_now (fun _ => "t") 101 (stub_world 0))) = 2%nat /\
  printed (fizzbuzz_ts stub_now (fun _ => "t") 101) (stub_world 0)
  = map label_ts (Zseq 1 100)
    ++ [("End: " ++ "t")%string; ("Execution time: " ++ "t" ++ "ms")%string] /\
  List.length (printed (fizzbuzz_ts stub_now (fun _ => "t") 101) (stub_world 0))
  = 102%nat.
Proof.
  apply (timed_script_output nat stub_error stub_now (fun _ => "t") 101
           (stub_world 0) (scaled 1 (-1)) (scaled 2 (-1)) 1%nat 2%nat).
  - lia.
  - reflexivity.
  - reflexivity.
Defined.

(** X2: when the first clock reading throws, examples/fizzbuzz.ts throws the
    same exception at once: the loop does not run and no line is printed. *)
Theorem timed_script_first_reading_fails (Host Exn : Type)
  (internal_now : Host -> completion Exn JS.number * Host)
  (Number_toString_double : JS.number -> string)
  (fuel : nat) (w : World Host) (e : Exn) (h1 : Host) :
  internal_now (host w) = (Throw e, h1) ->
  fizzbuzz_ts internal_now Number_toString_double fuel w
  = (Throw e, mkWorld h1 (console w)) /\
  printed (fizzbuzz_ts internal_now Number_toString_double fuel) w = [].
Proof.
  intros H1. unfold printed.
  rewrite (fizzbuzz_ts_clock_unavailable internal_now Number_toString_double
             fuel w e h1 H1).
  cbn [snd console]. split; [reflexivity | apply skipn_length_nil].
Qed.

Lemma timed_script_first_reading_fails_witness :
  fizzbuzz_ts stub_now (fun _ => "t") 101 (stub_world 4)
  = (Throw ClockUnavailable, mkWorld 5%nat []) /\
  printed (fizzbuzz_ts stub_now (fun _ => "t") 101) (stub_world 4) = [].
Proof.
  apply (timed_script_first_reading_fails nat stub_error stub_now
           (fun _ => "t") 101 (stub_world 4) ClockUnavailable 5%nat).
  reflexivity.
Defined.

(** X3: when the first clock reading succeeds and the second throws,
    examples/fizzbuzz.ts throws that exception after the loop: the hundred
    FizzBuzz lines are printed, the two timing lines are not. *)
Theorem timed_script_second_reading_fails (Host Exn : Type)
  (internal_now : Host -> completion Exn JS.number * Host)
  (Number_toString_double : JS.number -> string)
  (fuel : nat) (w : World Host) (start : JS.number) (e : Exn)
  (h1 h2 : Host) :
  (101 <= fuel)%nat ->
  internal_now (host w) = (Normal start, h1) ->
  internal_now h1 = (Throw e, h2) ->
  fizzbuzz_ts internal_now Number_toString_double fuel w
  = (Throw e, mkWorld h2 (console w ++ map label_ts (Zseq 1 100))) /\
  printed (fizzbuzz_ts internal_now Number_toString_double fuel) w
  = map label_ts (Zseq 1 100).
Proof.
  intros Hfuel H1 H2.
  assert (E : fizzbuzz_ts internal_now Number_toString_double fuel w
              = (Throw e, mkWorld h2 (console w ++ map label_ts (Zseq 1 100)))).
  { unfold fizzbuzz_ts, bind.
    rewrite performance_now_unfold, H1. cbn [fst snd].
    rewrite loop_ts_prints by assumption.
    rewrite performance_now_unfold. cbn [host console]. rewrite H2.
    reflexivity. }
  unfold printed. rewrite E. cbn [snd console].
  split; [reflexivity | apply skipn_length_app].
Qed.

Lemma timed_script_second_reading_fails_witness :
  fizzbuzz_ts stub_now (fun _ => "t") 101 (stub_world 3)
  = (Throw ClockUnavailable,
     mkWorld 5%nat ([] ++ map label_ts (Zseq 1 100))) /\
  printed (fizzbuzz_ts stub_now (fun _ => "t") 101) (stub_world 3)
  = map label_ts (Zseq 1 100).
Proof.
  apply (timed_script_second_reading_fails nat stub_error stub_now
           (fun _ => "t") 101 (stub_world 3) (scaled 4 (-1))
           ClockUnavailable 4%nat 5%nat).
  - lia.
  - reflexivity.
  - reflexivity.
Defined.

(** X4: examples/fizzbuzz.ts completes normally exactly when both clock
    readings, the one before the loop and the one after it, succeed. *)
Theorem timed_script_completes_iff (Host Exn : Type)
  (internal_now : Host -> completion Exn JS.number * Host)
  (Number_toString_double : JS.number -> string)
  (fuel : nat) (w : World Host) :
  (101 <= fuel)%nat ->
  fst (fizzbuzz_ts internal_now Number_toString_double fuel w) = Normal tt <->
  exists (start end_ : JS.number) (h1 h2 : Host),
    internal_now (host w) = (Normal start, h1) /\
    internal_now h1 = (Normal end_, h2).
Proof.
  intros Hfuel. split.
  - unfold fizzbuzz_ts, bind. rewrite performance_now_unfold.
    destruct (internal_now (host w)) as [[start | e |] h1] eqn:H1;
      cbn [fst snd]; try discriminate.
    rewrite loop_ts_prints by assumption.
    rewrite performance_now_unfold. cbn [host console].
    destruct (internal_now h1) as [[end_ | e |] h2] eqn:H2;
      cbn [fst snd]; try discriminate.
    intros _. now exists start, end_, h1, h2.
  - intros (start & end_ & h1 & h2 & H1 & H2).
    rewrite (fizzbuzz_ts_run internal_now Number_toString_double fuel w
               start end_ h1 h2 Hfuel H1 H2).
    reflexivity.
Qed.

Lemma timed_script_completes_iff_witness :
  fst (fizzbuzz_ts stub_now (fun _ => "t") 101 (stub_world 0)) = Normal tt <->
  exists (start end_ : JS.number) (h1 h2 : nat),
    stub_now (host (stub_world 0)) = (Normal start, h1) /\
    stub_now h1 = (Normal end_, h2).
Proof.
  apply (timed_script_completes_iff nat stub_error stub_now (fun _ => "t")
           101 (stub_world 0)).
  lia.
Defined.

(** X5: whatever the host clock does and however the script ends,
    examples/fizzbuzz.ts only adds lines to the console: the lines that
    were there before the run are still there, in place, after it. *)
Theorem timed_script_console_grows (Host Exn : Type)
  (internal_now : Host -> completion Exn JS.number * Host)
  (Number_toString_double : JS.number -> string)
  (fuel : nat) (w : World Host) :
  exists l : list string,
    console (snd (fizzbuzz_ts internal_now Number_toString_double fuel w))
    = console w ++ l.
Proof.
  unfold fizzbuzz_ts, bind. rewrite performance_now_unfold.
  destruct (internal_now (host w)) as [[start | e |] h1];
    cbn [fst snd]; try (exists []; cbn [snd console]; now rewrite app_nil_r).
  destruct (for_loop_frame label_ts (@body_ts Host Exn)
              (fun i => i <=? 100) (fun i => i + 1)
              (fun i w => eq_refl) fuel 1 (mkWorld h1 (console w)))
    as (l & Hc & Hs).
  fold (@loop_ts Host Exn fuel) in Hc, Hs.
  destruct (loop_ts fuel (mkWorld h1 (console w))) as [c w1].
  cbn [fst snd host console] in Hc, Hs. subst w1.
  destruct Hc as [-> | ->]; [| exists l; reflexivity].
  rewrite performance_now_unfold. cbn [host console].
  destruct (internal_now h1) as [[end_ | e |] h2];
    cbn [fst snd]; try (exists l; reflexivity).
  unfold console_log. cbn [snd host console].
  rewrite <- !app_assoc. eexists. reflexivity.
Qed.

(** X6: for every i in 1..100 the line that either script prints for i is
    FizzBuzz exactly when 15 divides i, Fizz exactly when 3 but not 5
    divides i, Buzz exactly when 5 but not 3 divides i, and the numeral of i
    exactly when neither does. *)
Theorem fizzbuzz_line_classified (Host Exn : Type) (w : World Host)
  (fuel : nat) (i : Z) :
  (101 <= fuel)%nat ->
  1 <= i <= 100 ->
  exists s : string,
    nth_error (printed (@loop_ts Host Exn fuel) w) (Z.to_nat (i - 1))
    = Some s /\
    nth_error (printed (@fizzbuzz_bench Host Exn fuel) w) (Z.to_nat (i - 1))
    = Some s /\
    (s = "FizzBuzz" <-> Z.rem i 15 = 0) /\
    (s = "Fizz" <-> Z.rem i 3 = 0 /\ Z.rem i 5 <> 0) /\
    (s = "Buzz" <-> Z.rem i 3 <> 0 /\ Z.rem i 5 = 0) /\
    (s = JS.Number_toString i <-> Z.rem i 3 <> 0 /\ Z.rem i 5 <> 0).
Proof.
  intros Hfuel Hi. exists (label_ts i).
  rewrite printed_loop_ts, printed_fizzbuzz_bench by assumption.
  rewrite !nth_line by assumption.
  rewrite <- label_ts_line_bench.
  split; [reflexivity |]. split; [reflexivity |].
  assert (Hr : Decimal.represents i (JS.Number_toString i))
    by (apply Number_toString_represents; lia).
  destruct Hr as (_ & Hd & _).
  destruct (all_digits_not_word _ Hd) as (NF & NB & NFB).
  assert (H15 : Z.rem i 15 = 0 <-> Z.rem i 3 = 0 /\ Z.rem i 5 = 0)
    by (Z.quot_rem_to_equations; lia).
  destruct (label_ts_cases i) as [H | [H | [H | H]]];
    destruct H as (H3 & H5 & ->).
  - repeat split; intros; try discriminate; try tauto; congruence.
  - repeat split; intros; try discriminate; try tauto; congruence.
  - repeat split; intros; try discriminate; try tauto; congruence.
  - repeat split; intros; try tauto; congruence.
Qed.

Lemma fizzbuzz_line_classified_witness :
  exists s : string,
    nth_error (printed (@loop_ts nat stub_error 101) (stub_world 0))
      (Z.to_nat (45 - 1)) = Some s /\
    nth_error (printed (@fizzbuzz_bench nat stub_error 101) (stub_world 0))
      (Z.to_nat (45 - 1)) = Some s /\
    (s = "FizzBuzz" <-> Z.rem 45 15 = 0) /\
    (s = "Fizz" <-> Z.rem 45 3 = 0 /\ Z.rem 45 5 <> 0) /\
    (s = "Buzz" <-> Z.rem 45 3 <> 0 /\ Z.rem 45 5 = 0) /\
    (s = JS.Number_toString 45 <-> Z.rem 45 3 <> 0 /\ Z.rem 45 5 <> 0).
Proof.
  apply (fizzbuzz_line_classified nat stub_error (stub_world 0) 101 45); lia.
Defined.

(** X7: the two FizzBuzz loops never read or change the host clock, never
    throw, and only add lines to the console, whatever the loop budget. *)
Theorem fizzbuzz_loops_leave_clock_alone (Host Exn : Type) (fuel : nat)
  (w : World Host) :
  (host (snd (@loop_ts Host Exn fuel w)) = host w /\
   (forall e : Exn, fst (@loop_ts Host Exn fuel w) <> Throw e) /\
   exists l, console (snd (@loop_ts Host Exn fuel w)) = console w ++ l) /\
  (host (snd (@fizzbuzz_bench Host Exn fuel w)) = host w /\
   (forall e : Exn, fst (@fizzbuzz_bench Host Exn fuel w) <> Throw e) /\
   exists l, console (snd (@fizzbuzz_bench Host Exn fuel w)) = console w ++ l).
Proof.
  split.
  - destruct (for_loop_frame label_ts (@body_ts Host Exn)
                (fun i => i <=? 100) (fun i => i + 1)
                (fun i w => eq_refl) fuel 1 w) as (l & Hc & Hs).
    fold (@loop_ts Host Exn fuel) in Hc, Hs. rewrite Hs. cbn [host console].
    split; [reflexivity |]. split; [| now exists l].
    intros e. destruct Hc as [-> | ->]; discriminate.
  - destruct (for_loop_frame line_bench (@body_bench Host Exn)
                (fun i => i <=? 100) (fun i => i + 1)
                (fun i w => eq_refl) fuel 1 w) as (l & Hc & Hs).
    fold (@fizzbuzz_bench Host Exn fuel) in Hc, Hs. rewrite Hs.
    cbn [host console].
    split; [reflexivity |]. split; [| now exists l].
    intros e. destruct Hc as [-> | ->]; discriminate.
Qed.

(** X8: when the clock does not advance between the two readings of
    examples/fizzbuzz.ts, that is when [start] and [end] are the same finite
    Number, the reported difference [end - start] is +0. *)
Theorem timed_script_stalled_clock (Host Exn : Type)
  (internal_now : Host -> completion Exn JS.number * Host)
  (Number_toString_double : JS.number -> string)
  (fuel : nat) (w : World Host) (t : JS.number) (h1 h2 : Host) :
  (101 <= fuel)%nat ->
  JS.is_finite t = true ->
  internal_now (host w) = (Normal t, h1) ->
  internal_now h1 = (Normal t, h2) ->
  last (printed (fizzbuzz_ts internal_now Number_toString_double fuel) w) ""
  = ("Execution time: "
     ++ Number_toString_double (S754_zero false) ++ "ms")%string.
Proof.
  intros Hfuel Hfin H1 H2. unfold printed.
  rewrite (fizzbuzz_ts_run internal_now Number_toString_double fuel w
             t t h1 h2 Hfuel H1 H2).
  cbn [snd console]. rewrite sub_self by assumption.
  rewrite <- !app_assoc, skipn_length_app, !app_assoc.
  apply last_last.
Qed.

Lemma timed_script_stalled_clock_witness :
  last (printed (fizzbuzz_ts (stalled_now (scaled 3 (-1)))
                   (fun x => if JS.is_finite x then "0" else "?") 101)
          (stub_world 0)) ""
  = ("Execution time: " ++ "0" ++ "ms")%string.
Proof.
  apply (timed_script_stalled_clock nat stub_error
           (stalled_now (scaled 3 (-1)))
           (fun x => if JS.is_finite x then "0" else "?") 101
           (stub_world 0) (scaled 3 (-1)) 1%nat 2%nat).
  - lia.
  - reflexivity.
  - reflexivity.
  - reflexivity.
Defined.

(** *** A clock that advanced gives a positive difference *)

Lemma shr_1_half (mrs : shr_record) (k : Z) :
  0 <= k -> 2 ^ (k + 1) <= shr_m mrs -> 2 ^ k <= shr_m (shr_1 mrs).
Proof.
  destruct mrs as [m r s]. cbn [shr_m]. intros Hk Hm.
  rewrite Z.pow_add_r, Z.pow_1_r in Hm by lia.
  assert (0 < 2 ^ k) by (apply Z.pow_pos_nonneg; lia).
  destruct m as [| [p | p |] | p]; cbn [shr_1 shr_m]; lia.
Qed.

Lemma iter_shr_1_lower (p : positive) :
  forall (mrs : shr_record) (k : Z),
    0 <= k -> 2 ^ (k + Zpos p) <= shr_m mrs ->
    2 ^ k <= shr_m (iter_pos shr_1 p mrs).
Proof.
  induction p as [p IH | p IH |]; intros mrs k Hk Hm; cbn [iter_pos].
  - apply IH; [assumption |]. apply IH; [lia |].
    apply shr_1_half; [lia |].
    replace (k + Zpos p + Zpos p + 1) with (k + Zpos p~1) by lia.
    exact Hm.
  - apply IH; [assumption |]. apply IH; [lia |].
    replace (k + Zpos p + Zpos p) with (k + Zpos p~0) by lia.
    exact Hm.
  - apply shr_1_half; assumption.
Qed.

Lemma shr_fexp_positive (m : positive) (e : Z) (l : location) :
  emin JS.prec JS.emax <= e ->
  0 < shr_m (fst (shr_fexp JS.prec JS.emax (Zpos m) e l)) /\
  emin JS.prec JS.emax <= snd (shr_fexp JS.prec JS.emax (Zpos m) e l).
Proof.
  intros He. unfold shr_fexp, shr. cbn [Zdigits2].
  assert (H0 : shr_m (shr_record_of_loc (Zpos m) l) = Zpos m)
    by (destruct l as [| []]; reflexivity).
  destruct (fexp JS.prec JS.emax (Zpos (digits2_pos m) + e) - e)
    as [| p | p] eqn:Hn; cbn [fst snd]; try (rewrite H0; split; lia).
  unfold fexp, emin, JS.prec, JS.emax in *.
  pose proof (digits2_pos_bounds m) as [Hlow _].
  split; [| lia].
  assert (Hd : Zpos (digits2_pos m) - 1 = 52 + Zpos p) by lia.
  rewrite Hd in Hlow.
  assert (2 ^ 52 <= shr_m (iter_pos shr_1 p (shr_record_of_loc (Zpos m) l))).
  { apply iter_shr_1_lower; [lia |]. rewrite H0. exact Hlow. }
  assert (0 < 2 ^ 52) by reflexivity. lia.
Qed.

Lemma round_nearest_even_positive (m : Z) (l : location) :
  0 < m -> 0 < round_nearest_even m l.
Proof.
  intros Hm. destruct l as [| []]; cbn [round_nearest_even];
    try destruct (Z.even m); lia.
Qed.

Lemma binary_round_aux_positive (m : positive) (e : Z) (l : location) :
  emin JS.prec JS.emax <= e ->
  JS.gt (binary_round_aux JS.prec JS.emax false (Zpos m) e l) JS.zero = true.
Proof.
  intros He. unfold binary_round_aux.
  destruct (shr_fexp_positive m e l He) as [H1 He'].
  destruct (shr_fexp JS.prec JS.emax (Zpos m) e l) as [mrs' e'].
  cbn [fst snd] in H1, He'.
  pose proof (round_nearest_even_positive _ (loc_of_shr_record mrs') H1)
    as Hr.
  destruct (round_nearest_even (shr_m mrs') (loc_of_shr_record mrs'))
    as [| q | q]; try lia.
  destruct (shr_fexp_positive q e' loc_Exact He') as [H2 _].
  destruct (shr_fexp JS.prec JS.emax (Zpos q) e' loc_Exact) as [mrs'' e''].
  cbn [fst] in H2.
  destruct (shr_m mrs'') as [| r | r]; try lia.
  destruct (e'' <=? JS.emax - JS.prec); reflexivity.
Qed.

Lemma binary_normalize_positive (z e : Z) :
  0 < z -> emin JS.prec JS.emax <= e ->
  JS.gt (binary_normalize JS.prec JS.emax z e false) JS.zero = true.
Proof.
  intros Hz He. destruct z as [| p | p]; try lia.
  cbn [binary_normalize]. unfold binary_round, shl_align.
  destruct (fexp JS.prec JS.emax (Zpos (digits2_pos p) + e) - e)
    as [| d | d] eqn:Hn; apply binary_round_aux_positive; try assumption.
  unfold fexp in *. lia.
Qed.

Lemma bounded_exponent_min (m : positive) (e : Z) :
  bounded JS.prec JS.emax m e = true -> emin JS.prec JS.emax <= e.
Proof.
  unfold bounded, canonical_mantissa, fexp. intros H.
  apply andb_true_iff in H as [H _]. apply Z.eqb_eq in H. lia.
Qed.

(** If [b > a] holds between two timestamps then [b - a > 0] holds. *)
Lemma sub_gt_zero (a b : JS.number) :
  timestamp a = true -> timestamp b = true ->
  JS.gt b a = true ->
  JS.gt (JS.sub b a) JS.zero = true.
Proof.
  unfold timestamp, JS.well_formed. intros Ha Hb Hgt.
  apply andb_true_iff in Ha as [Ha Fa]. apply andb_true_iff in Hb as [Hb Fb].
  destruct a as [sa | sa | | sa ma ea]; try discriminate Fa;
    destruct b as [sb | sb | | sb mb eb]; try discriminate Fb;
    clear Fa Fb.
  - discriminate Hgt.
  - destruct sb; [discriminate Hgt | reflexivity].
  - destruct sa; [reflexivity | discriminate Hgt].
  - cbn [valid_binary] in Ha, Hb.
    pose proof (bounded_exponent_min ma ea Ha) as Hea.
    pose proof (bounded_exponent_min mb eb Hb) as Heb.
    unfold JS.sub. cbn [SFsub].
    apply binary_normalize_positive; [| lia].
    rewrite !shl_align_value by lia.
    assert (Hpa : 0 < 2 ^ (ea - Z.min eb ea))
      by (apply Z.pow_pos_nonneg; lia).
    assert (Hpb : 0 < 2 ^ (eb - Z.min eb ea))
      by (apply Z.pow_pos_nonneg; lia).
    unfold JS.gt in Hgt. cbn [SFcompare] in Hgt.
    change (Pos.compare_cont Eq mb ma)
      with (Z.compare (Zpos mb) (Zpos ma)) in Hgt.
    destruct sb, sa; cbn [cond_Zopp]; try discriminate Hgt.
    + destruct (Z.compare_spec eb ea) as [E | L | G]; try discriminate Hgt.
      * subst eb. rewrite Z.min_id, Z.sub_diag. change (2 ^ 0) with 1.
        destruct (Z.compare_spec (Zpos mb) (Zpos ma)) as [E | L | G];
          try discriminate Hgt; lia.
      * rewrite Z.min_l by lia. rewrite Z.sub_diag. change (2 ^ 0) with 1.
        pose proof (bounded_exponent_lt mb ma eb ea Hb Ha L). lia.
    + nia.
    + destruct (Z.compare_spec eb ea) as [E | L | G]; try discriminate Hgt.
      * subst eb. rewrite Z.min_id, Z.sub_diag. change (2 ^ 0) with 1.
        destruct (Z.compare_spec (Zpos mb) (Zpos ma)) as [E | L | G];
          try discriminate Hgt; lia.
      * rewrite Z.min_r by lia. rewrite Z.sub_diag. change (2 ^ 0) with 1.
        pose proof (bounded_exponent_lt ma mb ea eb Ha Hb ltac:(lia)). lia.
Qed.

(** X9: in examples/fizzbuzz.ts, when the two readings are timestamps and
    the second is greater than the first, the reported difference
    [end - start] is greater than zero: it is never rounded down to 0. *)
Theorem timed_script_elapsed_positive (Host Exn : Type)
  (internal_now : Host -> completion Exn JS.number * Host)
  (Number_toString_double : JS.number -> string)
  (fuel : nat) (w : World Host) (start end_ : JS.number) (h1 h2 : Host) :
  host_yields_timestamps internal_now ->
  (101 <= fuel)%nat ->
  internal_now (host w) = (Normal start, h1) ->
  internal_now h1 = (Normal end_, h2) ->
  JS.gt end_ start = true ->
  last (printed (fizzbuzz_ts internal_now Number_toString_double fuel) w) ""
  = ("Execution time: "
     ++ Number_toString_double (JS.sub end_ start) ++ "ms")%string /\
  JS.gt (JS.sub end_ start) JS.zero = true.
Proof.
  intros Hts Hfuel H1 H2 Hgt. unfold printed.
  rewrite (fizzbuzz_ts_run internal_now Number_toString_double fuel w
             start end_ h1 h2 Hfuel H1 H2).
  cbn [snd console]. split.
  - rewrite <- !app_assoc, skipn_length_app, !app_assoc.
    apply last_last.
  - apply sub_gt_zero; [exact (Hts _ _ _ H1) | exact (Hts _ _ _ H2) | exact Hgt].
Qed.

Lemma timed_script_elapsed_positive_witness :
  last (printed (fizzbuzz_ts stub_now (fun _ => "t") 101) (stub_world 0)) ""
  = ("Execution time: " ++ "t" ++ "ms")%string /\
  JS.gt (JS.sub (scaled 2 (-1)) (scaled 1 (-1))) JS.zero = true.
Proof.
  apply (timed_script_elapsed_positive nat stub_error stub_now
           (fun _ => "t") 101 (stub_world 0)
           (scaled 1 (-1)) (scaled 2 (-1)) 1%nat 2%nat).
  - exact stub_yields_timestamps.
  - lia.
  - reflexivity.
  - reflexivity.
  - reflexivity.
Defined.
